(** * onnotify: the registry protocol of [onnotify.py], embedded in Rocq

    The development follows the layout of the script:
    - Python values used by the script (byte strings, [int], [str]);
    - the record codec ([parse_record], [unparse_record]);
    - the process state the script acts on (clock, environment, registry
      directories, store file, diagnostics) and a small state-and-exception
      monad for the effectful functions;
    - [db_update], [db_prune_old_fifo_files], the dispatchers, the listener
      [db_fifo_thread] and the configuration checks of [main];
    - the theorems. *)

From Stdlib Require Import ZArith Lia Bool.
From Stdlib Require Import Strings.Byte Strings.Ascii Strings.String.
From Stdlib Require Import DecimalString DecimalZ DecimalPos.
From stdpp Require Import gmap strings list.

Open Scope Z_scope.

(** ** Python values *)

(** A Python [bytes] object. *)
Abbreviation bytes := (list byte).

#[global] Instance byte_eq_decision : EqDecision byte := byte_eq_dec.

(** A [bytes] literal with ASCII content, [b"..."] in the script. *)
Definition b (s : string) : bytes := list_byte_of_string s.

(** [b"\n"] and [b" "]. *)
Definition newline : byte := x0a.
Definition space : byte := x20.

(** [str(z)] for an [int]: decimal digits, with a leading [-] when negative. *)
Definition str (z : Z) : string := NilEmpty.string_of_int (Z.to_int z).

(** [s.encode()] on a [str] of ASCII characters (the only ones [str] of an
    [int] produces). *)
Definition encode (s : string) : bytes := list_byte_of_string s.

(** The class [\d] of a bytes pattern: the ASCII digits [0-9]. *)
Definition is_digit (c : byte) : bool :=
  let n := Byte.to_N c in ((48 <=? n) && (n <=? 57))%N.

(** The class [.] of a pattern compiled without DOTALL: anything but [\n]. *)
Definition is_dot (c : byte) : bool := negb (Byte.eqb c newline).

Definition digit_value (c : byte) : Z := Z.of_N (Byte.to_N c) - 48.

(** One step of reading a decimal numeral: shift and add the next digit. *)
Definition int_step (acc : Z) (c : byte) : Z := 10 * acc + digit_value c.

(** [int(s)] on a run of ASCII digits (what [\d+] captures): base ten, most
    significant digit first, leading zeros allowed.  Python integers are
    unbounded; the interpreter's optional limit on the number of digits
    converted is not modelled. *)
Definition int (s : bytes) : Z := fold_left int_step s 0.

(** [sep.join(parts)]. *)
Fixpoint join (sep : bytes) (parts : list bytes) : bytes :=
  match parts with
  | [] => []
  | [p] => p
  | p :: ps => p ++ sep ++ join sep ps
  end.

(** The longest prefix of [s] whose bytes satisfy [p], and the rest: a greedy
    [c+] (or [c*]) for a character class [c]. *)
Fixpoint span (p : byte -> bool) (s : bytes) : bytes * bytes :=
  match s with
  | c :: s' =>
      if p c then let '(run, rest) := span p s' in (c :: run, rest)
      else ([], s)
  | [] => ([], [])
  end.

(** ** The record codec *)

(** A presence record [(time_, id_, path)]. *)
Definition record : Type := Z * Z * bytes.

Definition rec_time (r : record) : Z := r.1.1.
Definition rec_id (r : record) : Z := r.1.2.
Definition rec_path (r : record) : bytes := r.2.

(** [regex.match(s)] for [rb"^(\d+) (\d+) (.+)\n$"], returning the three
    groups.  Each of [\d+] and [.+] is followed by a byte outside its class,
    so the greedy run is the only way to match and no backtracking is left.
    Without MULTILINE, [$] matches at the end of the input and also just
    before a newline that ends the input, hence the two accepted tails. *)
Definition regex_match (s : bytes) : option (bytes * bytes * bytes) :=
  let '(g1, r1) := span is_digit s in
  match g1, r1 with
  | _ :: _, c1 :: r1' =>
      if decide (c1 = space) then
        let '(g2, r2) := span is_digit r1' in
        match g2, r2 with
        | _ :: _, c2 :: r2' =>
            if decide (c2 = space) then
              let '(g3, r3) := span is_dot r2' in
              match g3 with
              | _ :: _ =>
                  if decide (r3 = [newline]) then Some (g1, g2, g3)
                  else if decide (r3 = [newline; newline]) then Some (g1, g2, g3)
                  else None
              | [] => None
              end
            else None
        | _, _ => None
        end
      else None
  | _, _ => None
  end.

(** What the pattern says, read declaratively. *)
Inductive regex_spec : bytes -> bytes * bytes * bytes -> Prop :=
| Regex_spec (g1 g2 g3 tail : bytes) :
    g1 <> [] -> forallb is_digit g1 = true ->
    g2 <> [] -> forallb is_digit g2 = true ->
    g3 <> [] -> forallb is_dot g3 = true ->
    tail = [] \/ tail = [newline] ->
    regex_spec (g1 ++ space :: g2 ++ space :: g3 ++ newline :: tail)
               (g1, g2, g3).

(** The value computed by [parse_record], without its warning. *)
Definition parse_record_value (s : bytes) : option record :=
  match regex_match s with
  | None => None
  | Some (g1, g2, g3) => Some (int g1, int g2, g3)
  end.

(** One item of the tuple handed to [unparse_record]. *)
Inductive part : Type :=
| PInt (z : Z)
| PBytes (s : bytes).

(** [str(p).encode() if isinstance(p, int) else p]. *)
Definition part_bytes (p : part) : bytes :=
  match p with
  | PInt z => encode (str z)
  | PBytes s => s
  end.

Definition unparse_record (parts : list part) : bytes :=
  join [space] (map part_bytes parts) ++ [newline].

(** A record as the tuple [unparse_record] receives. *)
Definition record_parts (r : record) : list part :=
  [PInt (rec_time r); PInt (rec_id r); PBytes (rec_path r)].

(** [f.readlines()] / iterating a file opened in binary mode: the content cut
    after every [\n]; a last line without terminator is returned as it is. *)
Fixpoint readlines (s : bytes) : list bytes :=
  match s with
  | [] => []
  | c :: s' =>
      if decide (c = newline) then [c] :: readlines s'
      else match readlines s' with
           | [] => [[c]]
           | l :: ls => (c :: l) :: ls
           end
  end.

(** ** The state the script acts on *)

(** The exceptions the script can meet. *)
Inductive exn : Type :=
| Failure (msg : string)
| FileNotFoundError
| FileExistsError
| KeyboardInterrupt.

#[global] Instance exn_eq_decision : EqDecision exn.
Proof. solve_decision. Defined.

(** The text handed to [error] and [warn]: a plain string, or the f-string of
    [parse_record], kept as the line it quotes. *)
Inductive message : Type :=
| Text (s : string)
| MalformedRecord (s : bytes).

(** Lines written to [sys.stderr] by [error] and [warn].  The program name and
    the ANSI colouring around the message are not modelled. *)
Inductive diagnostic : Type :=
| Error (e : message)
| Warning (e : message).

(** What the dispatchers write to [sys.stdout]. *)
Inductive output : Type :=
| PrintClear
| PrintWaiting
| PrintReceived (t : Z).

(** Child processes: [subprocess.Popen(cmd)] and [child.terminate()]. *)
Inductive proc_event : Type :=
| Popen (cmd : list string) (child : nat)
| Terminate (child : nat).

(** An open file, named by the directory and the entry it was opened at. *)
Definition handle : Type := string * string.

Record world : Type := World {
  w_time : Z;                              (* int(time.time()) *)
  w_pid : Z;                               (* os.getpid() *)
  w_environ : gmap string string;          (* os.environ *)
  w_dirs : gmap string (gset string);      (* directories and their entries *)
  w_files : gmap handle bytes;             (* content of regular files *)
  w_stderr : list diagnostic;
  w_stdout : list output;
  w_procs : list proc_event;
  w_naps : nat                             (* calls of time.sleep(0.05) *)
}.

Definition set_dirs (d : gmap string (gset string)) (w : world) : world :=
  World (w_time w) (w_pid w) (w_environ w) d (w_files w)
        (w_stderr w) (w_stdout w) (w_procs w) (w_naps w).
Definition set_files (f : gmap handle bytes) (w : world) : world :=
  World (w_time w) (w_pid w) (w_environ w) (w_dirs w) f
        (w_stderr w) (w_stdout w) (w_procs w) (w_naps w).
Definition set_stderr (l : list diagnostic) (w : world) : world :=
  World (w_time w) (w_pid w) (w_environ w) (w_dirs w) (w_files w)
        l (w_stdout w) (w_procs w) (w_naps w).
Definition set_stdout (l : list output) (w : world) : world :=
  World (w_time w) (w_pid w) (w_environ w) (w_dirs w) (w_files w)
        (w_stderr w) l (w_procs w) (w_naps w).
Definition set_procs (l : list proc_event) (w : world) : world :=
  World (w_time w) (w_pid w) (w_environ w) (w_dirs w) (w_files w)
        (w_stderr w) (w_stdout w) l (w_naps w).
Definition set_naps (n : nat) (w : world) : world :=
  World (w_time w) (w_pid w) (w_environ w) (w_dirs w) (w_files w)
        (w_stderr w) (w_stdout w) (w_procs w) n.

(** ** A monad for state and exceptions *)

Inductive result (A : Type) : Type :=
| Ok (a : A)
| Raise (e : exn).
Arguments Ok {A} a.
Arguments Raise {A} e.

Definition M (A : Type) : Type := world -> result A * world.

Definition ret {A} (a : A) : M A := fun w => (Ok a, w).

Definition bind {A B} (m : M A) (k : A -> M B) : M B :=
  fun w =>
    match m w with
    | (Ok a, w') => k a w'
    | (Raise e, w') => (Raise e, w')
    end.

Definition raise {A} (e : exn) : M A := fun w => (Raise e, w).

(** [try: m  except E: h], where [catches e] tells whether [e] is an [E]. *)
Definition try_except {A} (m : M A) (catches : exn -> bool) (h : M A) : M A :=
  fun w =>
    match m w with
    | (Ok a, w') => (Ok a, w')
    | (Raise e, w') => if catches e then h w' else (Raise e, w')
    end.

Declare Scope io_scope.
Delimit Scope io_scope with io.
Bind Scope io_scope with M.
Notation "x <- m ;; k" := (bind m (fun x => k))
  (at level 20, m at level 99, k at level 200, only parsing) : io_scope.
Notation "' p <- m ;; k" := (bind m (fun x => let 'p := x in k))
  (at level 20, p pattern, m at level 99, k at level 200, only parsing)
  : io_scope.
Notation "m ;; k" := (bind m (fun _ => k))
  (at level 100, k at level 200, only parsing, right associativity)
  : io_scope.
Open Scope io_scope.

(** [for x in xs: body(x)], threading a value through the iterations. *)
Fixpoint for_each {A S} (xs : list A) (body : A -> S -> M S) (s : S) : M S :=
  match xs with
  | [] => ret s
  | x :: xs' => s' <- body x s ;; for_each xs' body s'
  end.

(** ** The operating system *)

(** A path [f"{dir}/{name}"] is kept as the pair of its directory and its
    entry name; the names the script builds never contain a separator.
    Entries of a registry directory are assumed to be files the user may
    unlink, so that [os.remove] fails only on a missing entry. *)

Definition time_time : M Z := fun w => (Ok (w_time w), w).

Definition os_getpid : M Z := fun w => (Ok (w_pid w), w).

Definition environ_get (k : string) : M (option string) :=
  fun w => (Ok (w_environ w !! k), w).

(** [os.makedirs(d, exist_ok=True)]. *)
Definition os_makedirs (d : string) : M unit :=
  fun w =>
    match w_dirs w !! d with
    | Some _ => (Ok tt, w)
    | None => (Ok tt, set_dirs (<[d := ∅]> (w_dirs w)) w)
    end.

Definition os_mkfifo (d name : string) : M unit :=
  fun w =>
    match w_dirs w !! d with
    | None => (Raise FileNotFoundError, w)
    | Some entries =>
        if decide (name ∈ entries) then (Raise FileExistsError, w)
        else (Ok tt, set_dirs (<[d := {[name]} ∪ entries]> (w_dirs w)) w)
    end.

Definition os_remove (d name : string) : M unit :=
  fun w =>
    match w_dirs w !! d with
    | None => (Raise FileNotFoundError, w)
    | Some entries =>
        if decide (name ∈ entries) then
          (Ok tt, set_files (delete (d, name) (w_files w))
                    (set_dirs (<[d := entries ∖ {[name]}]> (w_dirs w)) w))
        else (Raise FileNotFoundError, w)
    end.

Definition os_listdir (d : string) : M (list string) :=
  fun w =>
    match w_dirs w !! d with
    | None => (Raise FileNotFoundError, w)
    | Some entries => (Ok (elements entries), w)
    end.

(** [open(f"{d}/{name}", "a+b")]: the file is created empty when missing. *)
Definition open_append (d name : string) : M handle :=
  fun w =>
    match w_dirs w !! d with
    | None => (Raise FileNotFoundError, w)
    | Some entries =>
        if decide (name ∈ entries) then (Ok (d, name), w)
        else (Ok (d, name),
              set_files (<[(d, name) := []]> (w_files w))
                (set_dirs (<[d := {[name]} ∪ entries]> (w_dirs w)) w))
    end.

(** The bytes behind an open file. *)
Definition file_content (f : handle) (w : world) : bytes :=
  default [] (w_files w !! f).

(** [f.seek(0)] followed by [for line in f]: every line, from the start. *)
Definition file_lines (f : handle) : M (list bytes) :=
  fun w => (Ok (readlines (file_content f w)), w).

(** [f.truncate(0)]. *)
Definition file_truncate (f : handle) : M unit :=
  fun w => (Ok tt, set_files (<[f := []]> (w_files w)) w).

(** [f.write(s)] followed by [f.flush()]; in append mode the bytes go to the
    end of the file. *)
Definition file_write (f : handle) (s : bytes) : M unit :=
  fun w => (Ok tt, set_files (<[f := file_content f w ++ s]> (w_files w)) w).

Definition print (o : output) : M unit :=
  fun w => (Ok tt, set_stdout (w_stdout w ++ [o]) w).

Definition error (e : message) : M unit :=
  fun w => (Ok tt, set_stderr (w_stderr w ++ [Error e]) w).

Definition warn (e : message) : M unit :=
  fun w => (Ok tt, set_stderr (w_stderr w ++ [Warning e]) w).

(** [time.sleep(0.05)]. *)
Definition time_sleep : M unit :=
  fun w => (Ok tt, set_naps (S (w_naps w)) w).

(** [subprocess.Popen(cmd)]; the command is taken to start, and the child is
    named by its rank among the events so far. *)
Definition subprocess_Popen (cmd : list string) : M nat :=
  fun w =>
    let child := length (w_procs w) in
    (Ok child, set_procs (w_procs w ++ [Popen cmd child]) w).

Definition terminate (child : nat) : M unit :=
  fun w => (Ok tt, set_procs (w_procs w ++ [Terminate child]) w).

(** [with exclusive_lock(f): body].  One process is modelled, so taking and
    releasing the advisory lock has no effect to record. *)
Definition exclusive_lock {A} (f : handle) (body : M A) : M A := body.

(** ** The registry store *)

(** Number of seconds between updating the metadata DB. *)
Definition DB_UPDATE_INTERVAL : Z := 15.

Definition parse_record (s : bytes) : M (option record) :=
  match regex_match s with
  | None => warn (MalformedRecord s) ;; ret None
  | Some (g1, g2, g3) => ret (Some (int g1, int g2, g3))
  end.

(** [f"fifo.{id_}"]. *)
Definition fifo_name (id_ : Z) : string := "fifo." +:+ str id_.

(** [f"erased {n_outdated} outdated record{'s' * (n_outdated != 1)}"]. *)
Definition erased_message (n_outdated : Z) : message :=
  Text ("erased " +:+ str n_outdated +:+ " outdated record"
        +:+ (if decide (n_outdated = 1) then "" else "s")).

(** The body of the loop of [db_update] over the lines of the store, with
    the two variables it updates. *)
Definition db_update_line (now my_id : Z) (line : bytes)
    (acc : list record * Z) : M (list record * Z) :=
  let '(new_records, n_outdated) := acc in
  r <- parse_record line ;;
  match r with
  | None => ret (new_records, n_outdated)
  | Some (time_, id_, path) =>
      if decide (DB_UPDATE_INTERVAL * 2 <= now - time_) then
        ret (new_records, n_outdated + 1)
      else if decide (id_ = my_id) then ret (new_records, n_outdated)
      else ret (new_records ++ [(time_, id_, path)], n_outdated)
  end.

Section Registry.

(** [cwd = os.getcwd().encode("utf8")], computed once when the script loads. *)
Variable cwd : bytes.

Definition db_update (db_dir : string) (my_id : Z) (f : handle)
    (create_record : bool) : M (gset string) :=
  now <- time_time ;;
  lines <- file_lines f ;;
  '(new_records, n_outdated) <-
    for_each lines (db_update_line now my_id) ([], 0) ;;
  (if decide (0 < n_outdated) then warn (erased_message n_outdated)
   else ret tt) ;;
  let fifo_path := (db_dir, fifo_name my_id) in
  new_records <-
    (if create_record then
       let new_records := new_records ++ [(now, my_id, cwd)] in
       try_except (os_mkfifo fifo_path.1 fifo_path.2)
         (fun e => bool_decide (e = FileExistsError)) (ret tt) ;;
       ret new_records
     else
       os_remove fifo_path.1 fifo_path.2 ;;
       ret new_records) ;;
  let allowed_fifo_files : gset string :=
    list_to_set (map (fun r => fifo_name (rec_id r)) new_records) in
  let content := concat (map (fun r => unparse_record (record_parts r))
                             new_records) in
  file_truncate f ;;
  file_write f content ;;
  ret allowed_fifo_files.

Definition db_prune_old_fifo_files (db_dir : string)
    (allowed_fifo_files : gset string) : M unit :=
  names <- os_listdir db_dir ;;
  for_each names
    (fun f _ =>
       if String.prefix "fifo." f && bool_decide (f ∉ allowed_fifo_files)
       then os_remove db_dir f
       else ret tt)
    tt.

End Registry.

(** ** The dispatchers *)

(** An object with the two methods the listener calls. *)
Class Dispatcher (R : Type) : Type := {
  startup : R -> M R;
  run : R -> M R
}.

(** [class Runner]: re-runs a command on every notification. *)
Record Runner : Type := MkRunner {
  cmd : list string;
  child_process : option nat;
  do_clear : bool;
  cleared : bool
}.

Definition Runner_clear (self : Runner) : M unit :=
  if negb (do_clear self) then ret tt else print PrintClear.

Definition Runner_init (cmd : list string) (do_clear : bool) : Runner :=
  MkRunner cmd None do_clear false.

Definition Runner_early_clear (self : Runner) : M Runner :=
  Runner_clear self ;;
  ret (MkRunner (cmd self) (child_process self) (do_clear self) true).

Definition Runner_start_child (self : Runner) : M Runner :=
  match child_process self with
  | Some child => terminate child
  | None => ret tt
  end ;;
  child <- subprocess_Popen (cmd self) ;;
  ret (MkRunner (cmd self) (Some child) (do_clear self) (cleared self)).

Definition Runner_run (self : Runner) : M Runner :=
  (if negb (cleared self) then Runner_clear self else ret tt) ;;
  self <- Runner_start_child self ;;
  ret (MkRunner (cmd self) (child_process self) (do_clear self) false).

#[global] Instance Runner_dispatcher : Dispatcher Runner :=
  {| startup := Runner_run; run := Runner_run |}.

(** [class NotificationRunner]: logs every notification. *)
Inductive NotificationRunner : Type := MkNotificationRunner.

Definition NotificationRunner_run (self : NotificationRunner)
    : M NotificationRunner :=
  t <- time_time ;;
  print (PrintReceived t) ;;
  ret self.

Definition NotificationRunner_startup (self : NotificationRunner)
    : M NotificationRunner :=
  print PrintWaiting ;;
  ret self.

#[global] Instance NotificationRunner_dispatcher
    : Dispatcher NotificationRunner :=
  {| startup := NotificationRunner_startup; run := NotificationRunner_run |}.

(** The [runner] of [main] is one or the other. *)
#[global] Instance sum_dispatcher {R1 R2} `{Dispatcher R1} `{Dispatcher R2}
    : Dispatcher (R1 + R2) :=
  {| startup := fun r =>
       match r with
       | inl r1 => r1 <- startup r1 ;; ret (inl r1)
       | inr r2 => r2 <- startup r2 ;; ret (inr r2)
       end;
     run := fun r =>
       match r with
       | inl r1 => r1 <- run r1 ;; ret (inl r1)
       | inr r2 => r2 <- run r2 ;; ret (inr r2)
       end |}.

(** A dispatcher that only records the calls it receives, to observe the
    listener from outside. *)
Inductive call : Type := CallStartup | CallRun.

#[global] Instance recording_dispatcher : Dispatcher (list call) :=
  {| startup := fun calls => ret (calls ++ [CallStartup]);
     run := fun calls => ret (calls ++ [CallRun]) |}.

(** ** The listener *)

(** [open(f"{d}/{name}", "rb")] on the channel. *)
Definition open_read (d name : string) : M unit :=
  fun w =>
    match w_dirs w !! d with
    | None => (Raise FileNotFoundError, w)
    | Some entries =>
        if decide (name ∈ entries) then (Ok tt, w)
        else (Raise FileNotFoundError, w)
    end.

(** One turn of the [while True] loop of [db_fifo_thread], for the bytes
    [data] returned by [fifo.read(16)]. *)
Definition db_fifo_turn {R} `{Dispatcher R} (data : bytes) (runner : R) : M R :=
  match data with
  | [] => time_sleep ;; ret runner
  | _ :: _ => for_each data (fun _ runner => run runner) runner
  end.

(** [db_fifo_thread] never returns; it is run here for the turns of a finite
    sequence [reads] of results of [fifo.read(16)]. *)
Definition db_fifo_thread {R} `{Dispatcher R} (db_dir : string) (my_id : Z)
    (runner : R) (reads : list bytes) : M R :=
  runner <- startup runner ;;
  open_read db_dir (fifo_name my_id) ;;
  for_each reads db_fifo_turn runner.

(** [n] calls of [run] in a row. *)
Fixpoint run_times {R} `{Dispatcher R} (n : nat) (runner : R) : M R :=
  match n with
  | O => ret runner
  | S n' => runner <- run runner ;; run_times n' runner
  end.

(** ** Start of the program *)

(** ['/' in whoami]. *)
Definition has_slash (s : string) : bool :=
  existsb (Ascii.eqb "/"%char) (list_ascii_of_string s).

Section Main.

Variable cwd : bytes.

(** What [main] does once registered: it starts the thread running
    [db_update_thread] and listens in [db_fifo_thread] until interrupted.
    The interleaving of the two is left open. *)
Variable serve : string -> Z -> handle -> Runner + NotificationRunner -> M unit.

Definition main (argv : list string) : M unit :=
  my_id <- os_getpid ;;
  whoami <- environ_get "LOGNAME" ;;
  match whoami with
  | None | Some EmptyString => raise (Failure "LOGNAME is unset")
  | Some whoami =>
      if has_slash whoami then raise (Failure "LOGNAME contains a slash")
      else
        let db_dir := "/tmp/notifydb." +:+ whoami in
        os_makedirs db_dir ;;
        let cmd := drop 1 argv in
        let '(do_clear, cmd) :=
          match cmd with
          | c :: rest =>
              if bool_decide (c = "--no-clear" \/ c = "-c")
              then (false, rest) else (true, cmd)
          | [] => (true, cmd)
          end in
        let cmd :=
          match cmd with
          | c :: rest => if bool_decide (c = "--") then rest else cmd
          | [] => cmd
          end in
        runner <-
          match cmd with
          | _ :: _ =>
              r <- Runner_early_clear (Runner_init cmd do_clear) ;;
              ret (inl r)
          | [] => ret (inr MkNotificationRunner)
          end ;;
        f <- open_append db_dir "db" ;;
        exclusive_lock f
          (allowed_fifo_files <- db_update cwd db_dir my_id f true ;;
           db_prune_old_fifo_files db_dir allowed_fifo_files) ;;
        serve db_dir my_id f runner
  end.

(** How the interpreter ends. *)
Inductive exit : Type :=
| Exit (code : Z)
| Traceback (e : exn).

(** The [if __name__ == "__main__"] block. *)
Definition script (argv : list string) (w : world) : exit * world :=
  match main argv w with
  | (Ok _, w') => (Exit 0, w')
  | (Raise (Failure msg), w') => (Exit 1, (error (Text msg) w').2)
  | (Raise KeyboardInterrupt, w') => (Exit 0, w')
  | (Raise e, w') => (Traceback e, w')
  end.

End Main.

(** ** Reading a store *)

(** The records of the lines that parse, in order. *)
Definition parsed (lines : list bytes) : list record :=
  omap parse_record_value lines.

(** The records a store holds. *)
Definition store_records (content : bytes) : list record :=
  parsed (readlines content).

(** The lines [parse_record] rejects. *)
Definition malformed (lines : list bytes) : list bytes :=
  filter (fun l => parse_record_value l = None) lines.

(** The test [now - time_ >= DB_UPDATE_INTERVAL * 2]. *)
Definition outdated (now : Z) (r : record) : Prop :=
  DB_UPDATE_INTERVAL * 2 <= now - rec_time r.

(** A record that passes both tests of the loop of [db_update]. *)
Definition kept (now my_id : Z) (r : record) : Prop :=
  ~ outdated now r /\ rec_id r <> my_id.

#[global] Instance outdated_dec now r : Decision (outdated now r).
Proof. unfold outdated. apply _. Defined.

#[global] Instance kept_dec now my_id r : Decision (kept now my_id r).
Proof. unfold kept. apply _. Defined.

(** The bytes written for a list of records. *)
Definition store_of (records : list record) : bytes :=
  concat (map (fun r => unparse_record (record_parts r)) records).

(** The channel names of a list of records. *)
Definition fifo_names (records : list record) : gset string :=
  list_to_set (map (fun r => fifo_name (rec_id r)) records).


(** The directory [db_dir] exists and, when the channel is to be removed,
    holds it: the two calls of [db_update] that touch the directory succeed. *)
Definition channel_ready (db_dir : string) (my_id : Z) (create_record : bool)
    (w : world) : Prop :=
  exists entries, w_dirs w !! db_dir = Some entries /\
    (create_record = true \/ fifo_name my_id ∈ entries).

(** An identity that [parse_record] reads back: not empty, on one line. *)
Definition valid_path (path : bytes) : Prop :=
  path <> [] /\ newline ∉ path.


(** The list [new_records] of [db_update] when it reaches the rewrite: the
    kept records of the lines that parse, then the caller's own. *)
Definition new_records (cwd : bytes) (now my_id : Z) (create_record : bool)
    (lines : list bytes) : list record :=
  filter (kept now my_id) (parsed lines)
  ++ (if create_record then [(now, my_id, cwd)] else []).

(** The counter [n_outdated] of [db_update] after its loop. *)
Definition n_outdated (now : Z) (lines : list bytes) : Z :=
  Z.of_nat (length (filter (outdated now) (parsed lines))).

(** The warnings of one call of [db_update], in the order they are printed. *)
Definition warnings (now : Z) (lines : list bytes) : list diagnostic :=
  map (fun l => Warning (MalformedRecord l)) (malformed lines)
  ++ (if decide (0 < n_outdated now lines)
      then [Warning (erased_message (n_outdated now lines))] else []).

(** An entry [db_prune_old_fifo_files] deletes. *)
Definition orphaned (allowed_fifo_files : gset string) (name : string) : Prop :=
  String.prefix "fifo." name = true /\ name ∉ allowed_fifo_files.

(** ** The heartbeat thread *)



Section Heartbeat.

Variable cwd : bytes.



End Heartbeat.

(** ** Observing the child processes *)




(** ** A registry to run the script on *)

(** A line of the store: [text] and its terminator. *)
Definition line (text : string) : bytes := b text ++ [newline].

Definition alice_dir : string := "/tmp/notifydb.alice".
Definition alice_db : handle := (alice_dir, "db").
Definition alice_cwd : bytes := b "/home/alice/src".

(** Process 4242 of user alice at time 1700000100, with the given store and
    entries of the registry directory. *)
Definition alice_world (store : bytes) (entries : gset string) : world :=
  World 1700000100 4242 {["LOGNAME" := "alice"]}
        {[alice_dir := entries]} {[alice_db := store]} [] [] [] 0.

(** A store with a fresh record of process 7, a record of process 3 that is
    40 seconds old, a line that is no record and an older record of 4242. *)
Definition mixed_store : bytes :=
  line "1700000095 7 /home/alice/docs"
  ++ line "1700000060 3 /home/alice/old"
  ++ line "not a record"
  ++ line "1700000085 4242 /home/alice/src".


(** A process whose environment is [environ], before any registry exists. *)
Definition fresh_world (environ : gmap string string) : world :=
  World 1700000100 4242 environ ∅ ∅ [] [] [] 0.

(** A stand-in for the concurrent phase of [main] that does nothing. *)
Definition serve_nothing (db_dir : string) (my_id : Z) (f : handle)
    (runner : Runner + NotificationRunner) : M unit := ret tt.

(** * Theorems *)

(** ** Values and lines, on examples *)

Example str_negative : encode (str (-120)) = b "-120".
Proof. reflexivity. Qed.

Example int_leading_zeros : int (b "0075") = 75.
Proof. reflexivity. Qed.

Example unparse_example :
  unparse_record (record_parts (1700000000, 4242, b "/home/alice/src"))
  = b "1700000000 4242 /home/alice/src" ++ [newline].
Proof. reflexivity. Qed.

Example parse_example :
  parse_record_value (b "1700000000 4242 /home/alice/my src" ++ [newline])
  = Some (1700000000, 4242, b "/home/alice/my src").
Proof. vm_compute. reflexivity. Qed.

Example parse_no_newline : parse_record_value (b "1 2 x") = None.
Proof. reflexivity. Qed.

Example readlines_example :
  readlines (b "1 2 a" ++ [newline] ++ [newline] ++ b "tail")
  = [b "1 2 a" ++ [newline]; [newline]; b "tail"].
Proof. reflexivity. Qed.


(** ** Values and lines, on examples *)


(** ** Decimal numerals *)

Lemma encode_cons a s : encode (String a s) = byte_of_ascii a :: encode s.
Proof. reflexivity. Qed.

Lemma int_uint_acc u acc :
  fold_left int_step (encode (NilEmpty.string_of_uint u)) (Z.pos acc)
  = Z.pos (Pos.of_uint_acc u acc).
Proof.
  revert acc.
  induction u; intros acc; cbn [NilEmpty.string_of_uint Pos.of_uint_acc];
    [done|..];
    rewrite encode_cons; cbn [fold_left]; rewrite <- IHu; f_equal;
    unfold int_step, digit_value; simpl; lia.
Qed.

Lemma int_uint u :
  int (encode (NilEmpty.string_of_uint u)) = Z.of_uint u.
Proof.
  unfold int, Z.of_uint.
  induction u; cbn [NilEmpty.string_of_uint Pos.of_uint]; [done|..];
    rewrite encode_cons; cbn [fold_left];
    first [ exact IHu | apply int_uint_acc ].
Qed.

Lemma digits_uint u :
  forallb is_digit (encode (NilEmpty.string_of_uint u)) = true.
Proof.
  induction u; cbn [NilEmpty.string_of_uint]; [done|..];
    rewrite encode_cons; cbn [forallb]; exact IHu.
Qed.

Lemma str_nonneg z :
  0 <= z -> exists u, u <> Decimal.Nil /\ Z.to_int z = Decimal.Pos u.
Proof.
  destruct z as [|p|p]; intros Hz; [| |lia].
  - by exists (Decimal.D0 Decimal.Nil).
  - exists (Pos.to_uint p). split; [apply Unsigned.to_uint_nonnil | done].
Qed.


Lemma encode_uint_nonempty u :
  u <> Decimal.Nil -> encode (NilEmpty.string_of_uint u) <> [].
Proof. by destruct u. Qed.

(** [int(str(z).encode())] is [z] for a natural number [z]. *)
Lemma int_str z : 0 <= z -> int (encode (str z)) = z.
Proof.
  intros Hz. destruct (str_nonneg z Hz) as (u & _ & Hu).
  unfold str. rewrite Hu. cbn [NilEmpty.string_of_int].
  rewrite int_uint. change (Z.of_uint u) with (Z.of_int (Decimal.Pos u)).
  rewrite <- Hu. apply DecimalZ.of_to.
Qed.

Lemma str_digits z :
  0 <= z -> encode (str z) <> [] /\ forallb is_digit (encode (str z)) = true.
Proof.
  intros Hz. destruct (str_nonneg z Hz) as (u & Hnil & Hu).
  unfold str. rewrite Hu. cbn [NilEmpty.string_of_int].
  split; [by apply encode_uint_nonempty | apply digits_uint].
Qed.

Lemma is_digit_is_dot c : is_digit c = true -> is_dot c = true.
Proof. by destruct c. Qed.

Lemma forallb_digit_dot s :
  forallb is_digit s = true -> forallb is_dot s = true.
Proof.
  induction s as [|c s IH]; simpl; [done|].
  intros [Hc Hs]%andb_prop. by rewrite (is_digit_is_dot c Hc), IH.
Qed.


(** ** The pattern of [parse_record] *)

Lemma span_stop p xs c rest :
  forallb p xs = true -> p c = false ->
  span p (xs ++ c :: rest) = (xs, c :: rest).
Proof.
  intros Hxs Hc. induction xs as [|x xs IH]; simpl in *.
  - by rewrite Hc.
  - apply andb_prop in Hxs as [-> Hxs]. by rewrite IH.
Qed.

Lemma span_spec p s run rest :
  span p s = (run, rest) ->
  s = run ++ rest /\ forallb p run = true /\
  match rest with [] => True | c :: _ => p c = false end.
Proof.
  revert run rest. induction s as [|c s IH]; simpl; intros run rest H.
  - by inversion H.
  - destruct (p c) eqn:Hc.
    + destruct (span p s) as [run' rest'] eqn:Hs. inversion H; subst.
      destruct (IH _ _ eq_refl) as (-> & Hall & Hrest).
      simpl. by rewrite Hc, Hall.
    + inversion H; subst. simpl. by rewrite Hc.
Qed.

Lemma is_dot_newline c : is_dot c = false <-> c = newline.
Proof.
  unfold is_dot. rewrite negb_false_iff. split.
  - apply byte_dec_bl.
  - intros ->. reflexivity.
Qed.

Lemma forallb_is_dot s : forallb is_dot s = true <-> newline ∉ s.
Proof.
  induction s as [|c s IH]; simpl.
  - split; [intros _; apply not_elem_of_nil | done].
  - rewrite andb_true_iff, IH, not_elem_of_cons. split.
    + intros [Hc Hs]. split; [|done]. intros <-.
      by rewrite (proj2 (is_dot_newline newline) eq_refl) in Hc.
    + intros [Hc Hs]. split; [|done].
      destruct (is_dot c) eqn:E; [done|].
      apply is_dot_newline in E. congruence.
Qed.

(** The matcher accepts exactly the inputs the pattern describes, with the
    groups the pattern assigns. *)
Lemma regex_match_spec s g : regex_match s = Some g <-> regex_spec s g.
Proof.
  split.
  - unfold regex_match. intros H.
    destruct (span is_digit s) as [g1 r1] eqn:E1.
    apply span_spec in E1 as (-> & Hd1 & _).
    destruct g1 as [|a1 g1]; [done|]. destruct r1 as [|c1 r1]; [done|].
    destruct (decide (c1 = space)) as [->|]; [|done].
    destruct (span is_digit r1) as [g2 r2] eqn:E2.
    apply span_spec in E2 as (-> & Hd2 & _).
    destruct g2 as [|a2 g2]; [done|]. destruct r2 as [|c2 r2]; [done|].
    destruct (decide (c2 = space)) as [->|]; [|done].
    destruct (span is_dot r2) as [g3 r3] eqn:E3.
    apply span_spec in E3 as (-> & Hd3 & _).
    destruct g3 as [|a3 g3]; [done|].
    destruct (decide (r3 = [newline])) as [->|].
    { inversion H; subst.
      apply (Regex_spec (a1 :: g1) (a2 :: g2) (a3 :: g3) []); auto. }
    destruct (decide (r3 = [newline; newline])) as [->|]; [|done].
    inversion H; subst.
    apply (Regex_spec (a1 :: g1) (a2 :: g2) (a3 :: g3) [newline]); auto.
  - intros H. destruct H as [g1 g2 g3 tail Hn1 Hd1 Hn2 Hd2 Hn3 Hd3 Htail].
    unfold regex_match.
    rewrite (span_stop is_digit g1 space) by done.
    destruct g1 as [|a1 g1]; [done|]. rewrite decide_True by done.
    rewrite (span_stop is_digit g2 space) by done.
    destruct g2 as [|a2 g2]; [done|]. rewrite decide_True by done.
    rewrite (span_stop is_dot g3 newline) by done.
    destruct g3 as [|a3 g3]; [done|].
    destruct Htail as [->| ->].
    + by rewrite decide_True.
    + rewrite decide_False by done. by rewrite decide_True.
Qed.

Lemma digit_value_nonneg c : is_digit c = true -> 0 <= digit_value c.
Proof. destruct c; simpl; intros H; try discriminate H; unfold digit_value; simpl; lia. Qed.

Lemma int_digits_nonneg s : forallb is_digit s = true -> 0 <= int s.
Proof.
  unfold int.
  assert (forall acc, forallb is_digit s = true -> 0 <= acc ->
                      0 <= fold_left int_step s acc) as H.
  { induction s as [|c s IH]; intros acc Hs Hacc; simpl; [done|].
    simpl in Hs. apply andb_prop in Hs as [Hc Hs].
    apply IH; [done|]. pose proof (digit_value_nonneg c Hc).
    unfold int_step. lia. }
  intros Hs. by apply H.
Qed.

Lemma unparse_record_shape t p i :
  unparse_record (record_parts (t, p, i))
  = encode (str t) ++ space :: encode (str p) ++ space :: i ++ [newline].
Proof.
  unfold unparse_record, record_parts, rec_time, rec_id, rec_path. simpl.
  rewrite <- !app_assoc. simpl. by rewrite <- !app_assoc.
Qed.

(** Serialising then parsing gives the record back when both numbers are
    natural and the identity is valid. *)
Lemma parse_unparse_valid t p i :
  0 <= t -> 0 <= p -> valid_path i ->
  parse_record_value (unparse_record (record_parts (t, p, i))) = Some (t, p, i).
Proof.
  intros Ht Hp [Hi Hnl]. unfold parse_record_value.
  destruct (str_digits t Ht) as [Hn1 Hd1].
  destruct (str_digits p Hp) as [Hn2 Hd2].
  assert (regex_match (unparse_record (record_parts (t, p, i)))
          = Some (encode (str t), encode (str p), i)) as ->.
  { apply regex_match_spec. rewrite unparse_record_shape.
    apply (Regex_spec _ _ _ []); auto. by apply forallb_is_dot. }
  by rewrite !int_str.
Qed.


(** A line that parses yields natural numbers and a valid identity. *)
Lemma parse_record_value_valid s t p i :
  parse_record_value s = Some (t, p, i) -> 0 <= t /\ 0 <= p /\ valid_path i.
Proof.
  unfold parse_record_value.
  destruct (regex_match s) as [[[g1 g2] g3]|] eqn:E; [|done].
  intros [= <- <- <-]. apply regex_match_spec in E.
  inversion E; subst.
  split; [by apply int_digits_nonneg|].
  split; [by apply int_digits_nonneg|].
  split; [done | by apply forallb_is_dot].
Qed.

(** A line that parses ends with its only line feed, or with two. *)
Lemma parse_record_value_line s r :
  parse_record_value s = Some r ->
  exists body tail, s = body ++ newline :: tail /\ (newline ∉ body) /\
                    (tail = [] \/ tail = [newline]).
Proof.
  unfold parse_record_value.
  destruct (regex_match s) as [[[g1 g2] g3]|] eqn:E; [|done].
  intros _. apply regex_match_spec in E. inversion E; subst.
  exists (g1 ++ space :: g2 ++ space :: g3), tail.
  split; [by repeat (rewrite <- app_assoc; simpl)|].
  split; [|done].
  repeat (rewrite not_elem_of_app || rewrite not_elem_of_cons).
  repeat split; try done.
  - by apply forallb_is_dot, forallb_digit_dot.
  - by apply forallb_is_dot, forallb_digit_dot.
  - by apply forallb_is_dot.
Qed.

(** ** Lines and stores *)




Lemma store_of_app rs1 rs2 : store_of (rs1 ++ rs2) = store_of rs1 ++ store_of rs2.
Proof. unfold store_of. by rewrite map_app, concat_app. Qed.


Lemma parsed_cons l ls :
  parsed (l :: ls)
  = match parse_record_value l with
    | Some r => r :: parsed ls
    | None => parsed ls
    end.
Proof. unfold parsed. simpl. by destruct (parse_record_value l). Qed.






(** ** What one call of [db_update] does *)

Lemma set_stderr_app l1 l2 w :
  set_stderr (w_stderr (set_stderr (w_stderr w ++ l1) w) ++ l2)
    (set_stderr (w_stderr w ++ l1) w)
  = set_stderr (w_stderr w ++ l1 ++ l2) w.
Proof. destruct w. unfold set_stderr. simpl. by rewrite app_assoc. Qed.

Lemma set_stderr_nil w : set_stderr (w_stderr w ++ []) w = w.
Proof. destruct w. unfold set_stderr. simpl. by rewrite app_nil_r. Qed.

Lemma malformed_cons l ls :
  malformed (l :: ls)
  = match parse_record_value l with
    | Some _ => malformed ls
    | None => l :: malformed ls
    end.
Proof.
  unfold malformed. rewrite filter_cons.
  destruct (parse_record_value l); by case_decide.
Qed.

(** The loop over the lines: it keeps the records that pass both tests,
    counts the outdated ones and warns once per line it cannot parse. *)
Lemma db_update_loop now my_id lines acc n w :
  for_each lines (db_update_line now my_id) (acc, n) w
  = (Ok (acc ++ filter (kept now my_id) (parsed lines),
         n + n_outdated now lines),
     set_stderr
       (w_stderr w
        ++ map (fun l => Warning (MalformedRecord l)) (malformed lines)) w).
Proof.
  revert acc n w. induction lines as [|l ls IH]; intros acc n w.
  - simpl. unfold ret, n_outdated. simpl.
    by rewrite app_nil_r, Z.add_0_r, set_stderr_nil.
  - cbn [for_each]. unfold bind at 1. unfold db_update_line at 1.
    unfold bind at 1. unfold parse_record.
    rewrite parsed_cons, malformed_cons. unfold n_outdated.
    rewrite parsed_cons. unfold parse_record_value.
    destruct (regex_match l) as [[[g1 g2] g3]|].
    + unfold ret at 1.
      destruct (decide (DB_UPDATE_INTERVAL * 2 <= now - int g1)) as [Hold|Hold].
      * unfold ret at 1. rewrite IH. unfold n_outdated.
        rewrite (filter_cons_True (outdated now)) by exact Hold.
        rewrite (filter_cons_False (kept now my_id))
          by (intros [H _]; exact (H Hold)).
        simpl length. do 3 f_equal. lia.
      * rewrite (filter_cons_False (outdated now)) by exact Hold.
        destruct (decide (int g2 = my_id)) as [Hid|Hid].
        -- unfold ret at 1. rewrite IH.
           by rewrite (filter_cons_False (kept now my_id))
             by (intros [_ H]; exact (H Hid)).
        -- unfold ret at 1. rewrite IH.
           rewrite (filter_cons_True (kept now my_id)) by (split; assumption).
           by rewrite <- app_assoc.
    + unfold bind at 1, warn at 1, ret at 1. unfold ret at 1. rewrite IH.
      cbn [map]. f_equal. apply set_stderr_app.
Qed.

(** The rewrite proper: truncating and writing leaves [content] in the file. *)
Lemma file_rewrite {A} f content (a : A) w :
  (file_truncate f ;; file_write f content ;; ret a) w
  = (Ok a, set_files (<[f := content]> (w_files w)) w).
Proof.
  unfold bind, file_truncate, file_write, ret, file_content.
  destruct w. unfold set_files. simpl.
  by rewrite lookup_insert_eq, insert_insert_eq.
Qed.

(** [db_update] up to the point where it touches the channel: the store has
    been read and the warnings printed. *)
Lemma db_update_read cwd db_dir my_id f create_record w :
  let now := w_time w in
  let lines := readlines (file_content f w) in
  db_update cwd db_dir my_id f create_record w
  = (new_records <-
       (if create_record then
          try_except (os_mkfifo db_dir (fifo_name my_id))
            (fun e => bool_decide (e = FileExistsError)) (ret tt) ;;
          ret (new_records cwd now my_id true lines)
        else
          os_remove db_dir (fifo_name my_id) ;;
          ret (new_records cwd now my_id false lines)) ;;
     file_truncate f ;;
     file_write f (store_of new_records) ;;
     ret (fifo_names new_records))
      (set_stderr (w_stderr w ++ warnings now lines) w).
Proof.
  intros now lines.
  unfold db_update. unfold bind at 1. unfold time_time at 1.
  unfold bind at 1. unfold file_lines at 1.
  unfold bind at 1. rewrite db_update_loop.
  rewrite Z.add_0_l, app_nil_l. fold now lines.
  unfold bind at 1. unfold warnings, new_records.
  destruct (decide (0 < n_outdated now lines)).
  - unfold warn at 1. rewrite set_stderr_app.
    destruct create_record; by rewrite ?app_nil_r.
  - unfold ret at 1. rewrite !app_nil_r.
    destruct create_record; by rewrite ?app_nil_r.
Qed.

Lemma union_present (name : string) (entries : gset string) :
  name ∈ entries -> {[name]} ∪ entries = entries.
Proof. intros H. apply subseteq_union_1_L. by apply singleton_subseteq_l. Qed.

(** Registration and heartbeat: the call returns whether or not the channel
    was there, provided the directory is. *)
Lemma db_update_create cwd db_dir my_id f w entries :
  w_dirs w !! db_dir = Some entries ->
  let lines := readlines (file_content f w) in
  let rs := new_records cwd (w_time w) my_id true lines in
  db_update cwd db_dir my_id f true w
  = (Ok (fifo_names rs),
     set_files (<[f := store_of rs]> (w_files w))
       (set_dirs (<[db_dir := {[fifo_name my_id]} ∪ entries]> (w_dirs w))
          (set_stderr (w_stderr w ++ warnings (w_time w) lines) w))).
Proof.
  intros Hdir lines rs. rewrite db_update_read. fold lines rs.
  unfold bind at 1. unfold bind at 1.
  unfold try_except, os_mkfifo. cbn [w_dirs set_stderr]. rewrite Hdir.
  destruct (decide (fifo_name my_id ∈ entries)) as [Hin|Hin].
  - rewrite bool_decide_eq_true_2 by done. unfold ret at 1. unfold ret at 1.
    rewrite file_rewrite. f_equal.
    rewrite (union_present _ _ Hin), (insert_id _ _ _ Hdir).
    by destruct w.
  - unfold ret at 1. rewrite file_rewrite. by destruct w.
Qed.

(** Shutdown with the channel in place. *)
Lemma db_update_remove cwd db_dir my_id f w entries :
  w_dirs w !! db_dir = Some entries ->
  fifo_name my_id ∈ entries ->
  let lines := readlines (file_content f w) in
  let rs := new_records cwd (w_time w) my_id false lines in
  db_update cwd db_dir my_id f false w
  = (Ok (fifo_names rs),
     set_files (<[f := store_of rs]>
                  (delete (db_dir, fifo_name my_id) (w_files w)))
       (set_dirs (<[db_dir := entries ∖ {[fifo_name my_id]}]> (w_dirs w))
          (set_stderr (w_stderr w ++ warnings (w_time w) lines) w))).
Proof.
  intros Hdir Hin lines rs. rewrite db_update_read. fold lines rs.
  unfold bind at 1. unfold bind at 1.
  unfold os_remove. cbn [w_dirs set_stderr]. rewrite Hdir.
  rewrite decide_True by done. unfold ret at 1.
  rewrite file_rewrite. by destruct w.
Qed.

(** Shutdown with the channel gone: [os.remove] raises, nothing is written. *)
Lemma db_update_remove_absent cwd db_dir my_id f w :
  (forall entries, w_dirs w !! db_dir = Some entries ->
                   fifo_name my_id ∉ entries) ->
  let lines := readlines (file_content f w) in
  db_update cwd db_dir my_id f false w
  = (Raise FileNotFoundError,
     set_stderr (w_stderr w ++ warnings (w_time w) lines) w).
Proof.
  intros Habsent lines. rewrite db_update_read. fold lines.
  unfold bind at 1. unfold bind at 1.
  unfold os_remove. cbn [w_dirs set_stderr].
  destruct (w_dirs w !! db_dir) as [entries|] eqn:Hdir; [|done].
  by rewrite decide_False by (by apply Habsent).
Qed.


(** ** Records of the rewritten store *)









(** ** The record codec *)

(** [parse_record] returns the value of the pattern match and warns exactly
    when there is none. *)
Lemma parse_record_spec s w :
  parse_record s w
  = match parse_record_value s with
    | Some r => (Ok (Some r), w)
    | None =>
        (Ok None, set_stderr (w_stderr w ++ [Warning (MalformedRecord s)]) w)
    end.
Proof.
  unfold parse_record, parse_record_value.
  by destruct (regex_match s) as [[[g1 g2] g3]|].
Qed.






(** ** The rewrite of the store *)



Example mixed_store_rewritten :
  file_content alice_db
    (db_update alice_cwd alice_dir 4242 alice_db true
       (alice_world mixed_store {["db"]})).2
  = line "1700000095 7 /home/alice/docs"
    ++ line "1700000100 4242 /home/alice/src".
Proof. vm_compute. reflexivity. Qed.











(** ** The channel of the calling process *)

(** C4, the failing case: on shutdown ([create_record] false) with the
    channel of process 4242 already gone from the directory, [os.remove]
    raises [FileNotFoundError] out of [db_update] and the store keeps the
    record of 4242; on registration, a channel that already exists is
    tolerated. *)
Theorem shutdown_without_channel_raises :
  let store := line "1700000095 4242 /home/alice/src" in
  let absent := alice_world store {["db"]} in
  let present := alice_world store {["db"; "fifo.4242"]} in
  let shutdown := db_update alice_cwd alice_dir 4242 alice_db false absent in
  shutdown.1 = Raise FileNotFoundError
  /\ file_content alice_db shutdown.2 = store
  /\ store_records (file_content alice_db shutdown.2)
     = [(1700000095, 4242, alice_cwd)]
  /\ exists allowed,
       (db_update alice_cwd alice_dir 4242 alice_db true present).1
       = Ok allowed.
Proof.
  split; [|split; [|split]].
  - vm_compute. reflexivity.
  - vm_compute. reflexivity.
  - vm_compute. reflexivity.
  - eexists. erewrite db_update_create by reflexivity. reflexivity.
Qed.

(** ** Pruning at startup *)

Lemma orphaned_test allowed name :
  String.prefix "fifo." name && bool_decide (name ∉ allowed) = true
  <-> orphaned allowed name.
Proof.
  unfold orphaned. rewrite andb_true_iff, bool_decide_eq_true. tauto.
Qed.






Example startup_prune_example :
  let w := alice_world mixed_store {["db"; "fifo.3"; "fifo.7"; "notes"]} in
  let '(r, w1) := db_update alice_cwd alice_dir 4242 alice_db true w in
  match r with
  | Ok allowed =>
      elements allowed = ["fifo.7"; "fifo.4242"]
      /\ elements
           <$> w_dirs (db_prune_old_fifo_files alice_dir allowed w1).2
               !! alice_dir
         = Some ["notes"; "fifo.7"; "fifo.4242"; "db"]
  | Raise _ => False
  end.
Proof. vm_compute. split; reflexivity. Qed.

(** ** Configuration errors *)

Lemma has_slash_spec s :
  has_slash s = true <-> "/"%char ∈ list_ascii_of_string s.
Proof.
  unfold has_slash. rewrite existsb_exists. split.
  - intros (c & Hin & Heq). apply Ascii.eqb_eq in Heq as <-.
    by apply list_elem_of_In.
  - intros H. exists "/"%char. split; [by apply list_elem_of_In|].
    apply Ascii.eqb_refl.
Qed.

(** [main] raises [Failure] on a bad [LOGNAME] without touching the state. *)
Lemma main_bad_logname cwd serve argv w :
  w_environ w !! "LOGNAME" = None
  \/ w_environ w !! "LOGNAME" = Some ""
  \/ (exists whoami, w_environ w !! "LOGNAME" = Some whoami
                     /\ "/"%char ∈ list_ascii_of_string whoami) ->
  exists msg, main cwd serve argv w = (Raise (Failure msg), w).
Proof.
  intros H. unfold main. unfold bind at 1. unfold os_getpid at 1.
  unfold bind at 1. unfold environ_get at 1.
  destruct H as [-> | [-> | (whoami & -> & Hslash)]].
  - by eexists.
  - by eexists.
  - destruct whoami as [|c whoami].
    + by apply elem_of_nil in Hslash.
    + apply has_slash_spec in Hslash. rewrite Hslash. by eexists.
Qed.

(** C9: when [LOGNAME] is unset, empty or contains a slash, the script ends
    with exit code 1 after printing one error line, and nothing else has
    changed: no directory, file or channel was created or modified, whatever
    the arguments and whatever the program would do once registered. *)
Theorem bad_logname_exits cwd serve argv w :
  w_environ w !! "LOGNAME" = None
  \/ w_environ w !! "LOGNAME" = Some ""
  \/ (exists whoami, w_environ w !! "LOGNAME" = Some whoami
                     /\ "/"%char ∈ list_ascii_of_string whoami) ->
  exists msg w',
    script cwd serve argv w = (Exit 1, w')
    /\ w' = set_stderr (w_stderr w ++ [Error (Text msg)]) w
    /\ w_dirs w' = w_dirs w
    /\ w_files w' = w_files w.
Proof.
  intros H. destruct (main_bad_logname cwd serve argv w H) as [msg Hmain].
  exists msg. eexists. unfold script. rewrite Hmain. simpl. eauto.
Qed.

Lemma bad_logname_exits_witness :
  exists msg w',
    script alice_cwd serve_nothing ["onnotify"; "make"]
      (fresh_world {["LOGNAME" := "a/b"]}) = (Exit 1, w')
    /\ w' = set_stderr
              (w_stderr (fresh_world {["LOGNAME" := "a/b"]})
               ++ [Error (Text msg)])
              (fresh_world {["LOGNAME" := "a/b"]})
    /\ w_dirs w' = w_dirs (fresh_world {["LOGNAME" := "a/b"]})
    /\ w_files w' = w_files (fresh_world {["LOGNAME" := "a/b"]}).
Proof.
  apply bad_logname_exits.
  right. right. exists "a/b"%string. split; [reflexivity|].
  apply list_elem_of_In. simpl. auto.
Defined.

Example unset_logname :
  (script alice_cwd serve_nothing ["onnotify"] (fresh_world ∅)).1 = Exit 1
  /\ w_stderr (script alice_cwd serve_nothing ["onnotify"] (fresh_world ∅)).2
     = [Error (Text "LOGNAME is unset")].
Proof. split; reflexivity. Qed.

Example good_logname_registers :
  let out := script alice_cwd serve_nothing ["onnotify"]
               (fresh_world {["LOGNAME" := "alice"]}) in
  out.1 = Exit 0
  /\ elements <$> w_dirs out.2 !! alice_dir = Some ["fifo.4242"; "db"]
  /\ file_content alice_db out.2 = line "1700000100 4242 /home/alice/src"
  /\ w_stdout out.2 = [].
Proof. vm_compute. repeat split; reflexivity. Qed.

(** ** The listener *)

Lemma for_each_run_times {R} `{Dispatcher R} (data : bytes) :
  forall (runner : R) w,
    for_each data (fun _ runner => run runner) runner w
    = run_times (length data) runner w.
Proof.
  induction data as [|c data IH]; intros runner w; [done|].
  simpl. unfold bind. destruct (run runner w) as [[runner'|e] w']; [|done].
  apply IH.
Qed.

Lemma db_fifo_turn_run_times {R} `{Dispatcher R} (data : bytes) (runner : R) w :
  data <> [] -> db_fifo_turn data runner w = run_times (length data) runner w.
Proof.
  intros Hdata. destruct data as [|c data]; [done|].
  unfold db_fifo_turn. apply for_each_run_times.
Qed.

Lemma recording_run_times n (calls : list call) w :
  run_times n calls w = (Ok (calls ++ repeat CallRun n), w).
Proof.
  revert calls. induction n as [|n IH]; intros calls; simpl.
  - by rewrite app_nil_r.
  - unfold bind, ret. rewrite IH. by rewrite <- app_assoc.
Qed.

Lemma recording_turn (data : bytes) (calls : list call) w :
  exists w',
    db_fifo_turn data calls w = (Ok (calls ++ repeat CallRun (length data)), w').
Proof.
  destruct data as [|c data].
  - eexists. simpl. unfold bind, time_sleep, ret. by rewrite app_nil_r.
  - eexists. rewrite db_fifo_turn_run_times by done.
    apply recording_run_times.
Qed.

Lemma recording_reads (reads : list bytes) :
  forall (calls : list call) w,
    exists w',
      for_each reads db_fifo_turn calls w
      = (Ok (calls ++ repeat CallRun (length (concat reads))), w').
Proof.
  induction reads as [|data reads IH]; intros calls w.
  - exists w. simpl. by rewrite app_nil_r.
  - destruct (recording_turn data calls w) as [w1 Hturn].
    destruct (IH (calls ++ repeat CallRun (length data)) w1) as [w2 Hrest].
    exists w2. cbn [for_each]. unfold bind. rewrite Hturn, Hrest.
    by rewrite <- app_assoc, <- repeat_app, <- length_app.
Qed.

(** C7: for any dispatcher, the turn of the listener for a non-empty read
    [data] is [length data] calls of [run], one after the other; five bytes
    give five calls.  Observed with a dispatcher that records its calls, the
    listener calls [startup] once and then [run] once per byte read, over any
    sequence of reads (empty reads only make it sleep). *)
Theorem per_byte_dispatch :
  (forall R (D : Dispatcher R) (data : bytes) (runner : R) w,
     data <> [] ->
     db_fifo_turn data runner w = run_times (length data) runner w)
  /\ (forall R (D : Dispatcher R) (data : bytes) (runner : R) w,
        length data = 5%nat ->
        db_fifo_turn data runner w
        = (r1 <- run runner ;; r2 <- run r1 ;; r3 <- run r2 ;;
           r4 <- run r3 ;; r5 <- run r4 ;; ret r5) w)
  /\ (forall db_dir my_id (reads : list bytes) (calls : list call) w entries,
        w_dirs w !! db_dir = Some entries ->
        fifo_name my_id ∈ entries ->
        exists w',
          db_fifo_thread db_dir my_id calls reads w
          = (Ok (calls ++ CallStartup
                         :: repeat CallRun (length (concat reads))), w')).
Proof.
  split; [|split].
  - intros R D data runner w Hdata. by apply db_fifo_turn_run_times.
  - intros R D data runner w Hlen.
    rewrite db_fifo_turn_run_times by (by destruct data).
    rewrite Hlen. reflexivity.
  - intros db_dir my_id reads calls w entries Hdir Hfifo.
    destruct (recording_reads reads (calls ++ [CallStartup]) w) as [w' Hrun].
    exists w'. unfold db_fifo_thread. unfold bind at 1. simpl startup.
    unfold ret at 1. unfold bind at 1. unfold open_read.
    rewrite Hdir, decide_True by done. rewrite Hrun.
    by rewrite <- app_assoc.
Qed.

Lemma per_byte_dispatch_witness :
  exists w',
    db_fifo_thread alice_dir 4242 [] [b "hello"]
      (alice_world [] {["db"; "fifo.4242"]})
    = (Ok [CallStartup; CallRun; CallRun; CallRun; CallRun; CallRun], w').
Proof.
  destruct per_byte_dispatch as (_ & _ & Hrecorded).
  apply (Hrecorded alice_dir 4242 [b "hello"] []
           (alice_world [] {["db"; "fifo.4242"]}) {["db"; "fifo.4242"]}).
  - reflexivity.
  - apply elem_of_union_r, elem_of_singleton. reflexivity.
Defined.

Example five_notifications_logged :
  w_stdout
    (db_fifo_thread alice_dir 4242 MkNotificationRunner
       [b "he"; []; b "llo"] (alice_world [] {["db"; "fifo.4242"]})).2
  = [PrintWaiting; PrintReceived 1700000100; PrintReceived 1700000100;
     PrintReceived 1700000100; PrintReceived 1700000100;
     PrintReceived 1700000100].
Proof. vm_compute. reflexivity. Qed.

Example command_restarted_per_byte :
  w_procs
    (db_fifo_thread alice_dir 4242 (Runner_init ["make"] true)
       [b "ab"] (alice_world [] {["db"; "fifo.4242"]})).2
  = [Popen ["make"] 0; Terminate 0; Popen ["make"] 2; Terminate 2;
     Popen ["make"] 4].
Proof. vm_compute. reflexivity. Qed.

(** * Further properties of the script *)

(** ** The codec, beyond the round trip *)


(** X2: whatever line [parse_record] accepts, the record it returns has
    natural numbers and a non-empty identity on one line, and writing that
    record and parsing it again returns the same record: one pass through
    the codec brings a line to a form that is stable. *)
Theorem parsed_record_stable s r w w' :
  parse_record s w = (Ok (Some r), w') ->
  w' = w
  /\ 0 <= rec_time r /\ 0 <= rec_id r
  /\ rec_path r <> [] /\ (newline ∉ rec_path r)
  /\ parse_record (unparse_record (record_parts r)) w = (Ok (Some r), w).
Proof.
  rewrite parse_record_spec.
  destruct (parse_record_value s) as [r'|] eqn:E; [|discriminate].
  intros [= -> <-]. destruct r as [[t p] i].
  pose proof (parse_record_value_valid _ _ _ _ E) as (Ht & Hp & Hi & Hnl).
  repeat split; try done.
  by rewrite parse_record_spec, parse_unparse_valid.
Qed.

Lemma parsed_record_stable_witness :
  let w := alice_world [] ∅ in
  w = w
  /\ 0 <= 75 /\ 0 <= 4
  /\ b "/tmp/x y" <> [] /\ (newline ∉ b "/tmp/x y")
  /\ parse_record (unparse_record (record_parts (75, 4, b "/tmp/x y"))) w
     = (Ok (Some (75, 4, b "/tmp/x y")), w).
Proof.
  apply (parsed_record_stable (line "0075 04 /tmp/x y") (75, 4, b "/tmp/x y")
           (alice_world [] ∅) (alice_world [] ∅)).
  vm_compute. reflexivity.
Defined.

(** X3: [parse_record] rejects, with its warning, every line that does not
    end with a line feed, whatever else it holds: the last line of a store
    that was cut short is never read as a record. *)
Theorem unterminated_line_rejected s w :
  last s <> Some newline ->
  parse_record s w
  = (Ok None, set_stderr (w_stderr w ++ [Warning (MalformedRecord s)]) w).
Proof.
  intros Hlast. rewrite parse_record_spec.
  destruct (parse_record_value s) as [r|] eqn:E; [|done].
  apply parse_record_value_line in E as (body & tail & -> & _ & Htail).
  destruct Hlast.
  destruct Htail as [-> | ->].
  - by rewrite last_snoc.
  - change (body ++ [newline; newline]) with (body ++ [newline] ++ [newline]).
    by rewrite app_assoc, last_snoc.
Qed.

Lemma unterminated_line_rejected_witness :
  parse_record (b "1700000095 7 /home/alice/docs") (alice_world [] ∅)
  = (Ok None,
     set_stderr
       (w_stderr (alice_world [] ∅)
        ++ [Warning (MalformedRecord (b "1700000095 7 /home/alice/docs"))])
       (alice_world [] ∅)).
Proof.
  apply unterminated_line_rejected. vm_compute. discriminate.
Defined.

(** ** Channel names *)

Lemma str_inj z1 z2 : str z1 = str z2 -> z1 = z2.
Proof.
  unfold str. intros H. apply DecimalZ.to_int_inj.
  pose proof (NilEmpty.isi (Z.to_int z1)) as H1.
  rewrite H, NilEmpty.isi in H1. congruence.
Qed.

Lemma fifo_name_inj id1 id2 : fifo_name id1 = fifo_name id2 -> id1 = id2.
Proof.
  unfold fifo_name. intros H. simpl in H. injection H as H.
  by apply str_inj.
Qed.

(** X4: two processes have the same channel name only if they have the same
    id; every channel name starts with the prefix the pruning looks for, and
    is never the name of the store file. *)
Theorem fifo_name_distinct id1 id2 :
  (fifo_name id1 = fifo_name id2 <-> id1 = id2)
  /\ String.prefix "fifo." (fifo_name id1) = true
  /\ fifo_name id1 <> "db".
Proof.
  split; [|split].
  - split; [apply fifo_name_inj | by intros ->].
  - unfold fifo_name. apply prefix_correct.
    generalize (str id1). intros [|c s]; reflexivity.
  - discriminate.
Qed.

(** ** More on one call of [db_update] *)

(** Without the registry directory both modes fail: [os.mkfifo] raises
    [FileNotFoundError], which [except FileExistsError] does not catch. *)
Lemma db_update_no_dir cwd db_dir my_id f create_record w :
  w_dirs w !! db_dir = None ->
  db_update cwd db_dir my_id f create_record w
  = (Raise FileNotFoundError,
     set_stderr
       (w_stderr w ++ warnings (w_time w) (readlines (file_content f w))) w).
Proof.
  intros Hdir. rewrite db_update_read.
  destruct create_record; unfold bind at 1; unfold bind at 1.
  - unfold try_except, os_mkfifo. cbn [w_dirs set_stderr].
    by rewrite Hdir.
  - unfold os_remove. cbn [w_dirs set_stderr]. by rewrite Hdir.
Qed.

Lemma not_channel_ready db_dir my_id create_record w :
  ~ channel_ready db_dir my_id create_record w ->
  w_dirs w !! db_dir = None
  \/ (create_record = false
      /\ forall entries, w_dirs w !! db_dir = Some entries ->
                         fifo_name my_id ∉ entries).
Proof.
  intros Hnot. destruct (w_dirs w !! db_dir) as [entries|] eqn:Hdir; [|by left].
  right. destruct create_record.
  - destruct Hnot. exists entries. auto.
  - split; [done|]. intros entries' [= <-] Hin.
    apply Hnot. exists entries. auto.
Qed.

Lemma channel_ready_cases db_dir my_id create_record w :
  channel_ready db_dir my_id create_record w
  \/ ~ channel_ready db_dir my_id create_record w.
Proof.
  destruct (w_dirs w !! db_dir) as [entries|] eqn:Hdir.
  - destruct create_record.
    + left. exists entries. auto.
    + destruct (decide (fifo_name my_id ∈ entries)) as [Hin|Hout].
      * left. exists entries. auto.
      * right. intros (entries' & Hdir' & [?|Hin]); [done|]. congruence.
  - right. intros (entries & Hdir' & _). congruence.
Qed.


(** X6: what a call of [db_update] leaves alone, whether it returns or
    raises: every other directory, every entry of the registry directory
    except the caller's own channel, the content of every file except the
    store and that channel, the terminal output, the child processes, the
    clock and the environment. *)
Theorem db_update_frame cwd db_dir my_id f create_record w :
  let w' := (db_update cwd db_dir my_id f create_record w).2 in
  (forall d, d <> db_dir -> w_dirs w' !! d = w_dirs w !! d)
  /\ (forall name, name <> fifo_name my_id ->
        (exists entries', w_dirs w' !! db_dir = Some entries' /\ name ∈ entries')
        <-> (exists entries, w_dirs w !! db_dir = Some entries /\ name ∈ entries))
  /\ (forall h, h <> f -> h <> (db_dir, fifo_name my_id) ->
        w_files w' !! h = w_files w !! h)
  /\ w_stdout w' = w_stdout w
  /\ w_procs w' = w_procs w
  /\ w_time w' = w_time w
  /\ w_environ w' = w_environ w.
Proof.
  intros w'.
  destruct (channel_ready_cases db_dir my_id create_record w)
    as [Hready|Hnot].
  - destruct Hready as (entries & Hdir & Hready). subst w'.
    destruct create_record.
    + rewrite (db_update_create _ _ _ _ _ _ Hdir). simpl.
      split; [intros d Hd; by rewrite lookup_insert_ne|].
      split; [|split; [intros h Hf _; by rewrite lookup_insert_ne|done]].
      intros name Hname. rewrite lookup_insert_eq, Hdir. split.
      * intros (? & [= <-] & Hin). exists entries. split; [done|].
        apply elem_of_union in Hin as [Hin|Hin]; [|done].
        by apply elem_of_singleton in Hin.
      * intros (? & [= <-] & Hin). eexists. split; [done|].
        by apply elem_of_union_r.
    + destruct Hready as [|Hin]; [done|].
      rewrite (db_update_remove _ _ _ _ _ _ Hdir Hin). simpl.
      split; [intros d Hd; by rewrite lookup_insert_ne|].
      split; [|split; [|done]].
      * intros name Hname. rewrite lookup_insert_eq, Hdir. split.
        -- intros (? & [= <-] & Hin'). exists entries. split; [done|].
           by apply elem_of_difference in Hin' as [? _].
        -- intros (? & [= <-] & Hin'). eexists. split; [done|].
           apply elem_of_difference. split; [done|].
           by rewrite elem_of_singleton.
      * intros h Hf Hfifo.
        by rewrite lookup_insert_ne, lookup_delete_ne.
  - assert ((db_update cwd db_dir my_id f create_record w).2
            = set_stderr
                (w_stderr w
                 ++ warnings (w_time w) (readlines (file_content f w))) w)
      as Hw'.
    { destruct (not_channel_ready _ _ _ _ Hnot) as [Hdir | [-> Habsent]].
      - by rewrite db_update_no_dir.
      - by rewrite db_update_remove_absent. }
    subst w'. rewrite Hw'. by destruct w.
Qed.















(** ** More on pruning *)

(** The loop of [db_prune_old_fifo_files], whatever its outcome, leaves
    alone what is not an orphaned entry of the directory. *)
Lemma prune_loop_frame db_dir allowed names :
  forall w,
    let w' := (for_each names
                 (fun f _ =>
                    if String.prefix "fifo." f && bool_decide (f ∉ allowed)
                    then os_remove db_dir f else ret tt) tt w).2 in
    (forall d, d <> db_dir -> w_dirs w' !! d = w_dirs w !! d)
    /\ (forall d name, d <> db_dir \/ ~ orphaned allowed name ->
          w_files w' !! (d, name) = w_files w !! (d, name))
    /\ w_stderr w' = w_stderr w
    /\ w_stdout w' = w_stdout w
    /\ w_procs w' = w_procs w
    /\ w_time w' = w_time w.
Proof.
  induction names as [|n ns IH]; intros w; [done|].
  cbn [for_each]. unfold bind.
  destruct (String.prefix "fifo." n && bool_decide (n ∉ allowed)) eqn:Htest.
  - apply orphaned_test in Htest. unfold os_remove.
    destruct (w_dirs w !! db_dir) as [entries|]; [|done].
    destruct (decide (n ∈ entries)); [|done].
    specialize (IH (set_files (delete (db_dir, n) (w_files w))
                      (set_dirs (<[db_dir := entries ∖ {[n]}]> (w_dirs w)) w))).
    cbv zeta in IH. destruct IH as (Hd & Hf & He & Ho & Hp & Ht).
    split; [|split; [|done]].
    + intros d Hne. rewrite Hd by done. simpl. by rewrite lookup_insert_ne.
    + intros d name Hkeep. rewrite Hf by done. simpl.
      rewrite lookup_delete_ne; [done|].
      intros [= <- <-]. destruct Hkeep as [Hne|Hno]; [done|]. by apply Hno.
  - unfold ret at 1. apply IH.
Qed.


(** What [db_prune_old_fifo_files] leaves alone. *)
Lemma db_prune_effect db_dir allowed w :
  let out := db_prune_old_fifo_files db_dir allowed w in
  (w_dirs w !! db_dir = None -> out = (Raise FileNotFoundError, w))
  /\ (forall d, d <> db_dir -> w_dirs out.2 !! d = w_dirs w !! d)
  /\ (forall d name, d <> db_dir \/ ~ orphaned allowed name ->
        w_files out.2 !! (d, name) = w_files w !! (d, name))
  /\ file_content (db_dir, "db") out.2 = file_content (db_dir, "db") w
  /\ w_stderr out.2 = w_stderr w
  /\ w_stdout out.2 = w_stdout w
  /\ w_procs out.2 = w_procs w.
Proof.
  intros out. unfold out, db_prune_old_fifo_files, bind, os_listdir.
  destruct (w_dirs w !! db_dir) as [entries|] eqn:Hdir.
  - pose proof (prune_loop_frame db_dir allowed (elements entries) w) as H.
    cbv zeta in H. destruct H as (Hd & Hf & He & Ho & Hp & Ht).
    split; [done|]. split; [exact Hd|]. split; [exact Hf|].
    split; [|done]. unfold file_content. rewrite Hf; [done|].
    right. intros [Hprefix _]. discriminate.
  - split; [done|]. split; [done|]. split; [done|]. done.
Qed.

(** X11: [db_prune_old_fifo_files] raises [FileNotFoundError] without any
    effect when the directory does not exist.  In every case it leaves
    alone the other directories, the content of every file that is not an
    orphaned entry (the store among them), the diagnostics, the terminal
    output and the child processes. *)
Theorem prune_frame db_dir allowed w :
  let out := db_prune_old_fifo_files db_dir allowed w in
  (w_dirs w !! db_dir = None -> out = (Raise FileNotFoundError, w))
  /\ (forall d, d <> db_dir -> w_dirs out.2 !! d = w_dirs w !! d)
  /\ (forall d name, d <> db_dir \/ ~ orphaned allowed name ->
        w_files out.2 !! (d, name) = w_files w !! (d, name))
  /\ file_content (db_dir, "db") out.2 = file_content (db_dir, "db") w
  /\ w_stderr out.2 = w_stderr w
  /\ w_stdout out.2 = w_stdout w
  /\ w_procs out.2 = w_procs w.
Proof. apply db_prune_effect. Qed.



(** ** The dispatchers *)







(** One turn of the listener in log mode. *)
Lemma notification_turn (data : bytes) w :
  db_fifo_turn data MkNotificationRunner w
  = (Ok MkNotificationRunner,
     set_naps (w_naps w + (if decide (data = []) then 1 else 0))%nat
       (set_stdout
          (w_stdout w ++ repeat (PrintReceived (w_time w)) (length data)) w)).
Proof.
  destruct data as [|c data].
  - simpl. unfold bind, time_sleep, ret. destruct w.
    unfold set_naps, set_stdout. simpl. rewrite app_nil_r.
    f_equal. f_equal. lia.
  - rewrite db_fifo_turn_run_times by done.
    rewrite decide_False by done.
    generalize (length (c :: data)). intros n. revert w.
    induction n as [|n IH]; intros w.
    + simpl. unfold ret. destruct w. unfold set_naps, set_stdout. simpl.
      rewrite app_nil_r, Nat.add_0_r. reflexivity.
    + cbn [run_times]. unfold bind at 1.
      change (run ?r) with (NotificationRunner_run r).
      unfold NotificationRunner_run, bind, time_time, print, ret.
      rewrite IH. destruct w. unfold set_naps, set_stdout. simpl.
      by rewrite <- app_assoc.
Qed.

(** X15: in log mode the listener prints its banner, then one line per byte
    read, over any sequence of reads; an empty read costs one sleep and
    prints nothing.  The listener starts no process and leaves the registry
    and the diagnostics alone. *)
Theorem log_mode_listener db_dir my_id (reads : list bytes) w entries :
  w_dirs w !! db_dir = Some entries ->
  fifo_name my_id ∈ entries ->
  exists w',
    db_fifo_thread db_dir my_id MkNotificationRunner reads w
    = (Ok MkNotificationRunner, w')
    /\ w_stdout w'
       = w_stdout w
         ++ PrintWaiting
            :: repeat (PrintReceived (w_time w)) (length (concat reads))
    /\ w_naps w'
       = (w_naps w + length (filter (fun data => data = []) reads))%nat
    /\ w_procs w' = w_procs w
    /\ w_dirs w' = w_dirs w /\ w_files w' = w_files w
    /\ w_stderr w' = w_stderr w.
Proof.
  intros Hdir Hfifo. unfold db_fifo_thread. unfold bind at 1.
  change (startup ?r) with (NotificationRunner_startup r).
  unfold NotificationRunner_startup, bind at 1, print at 1, ret at 1.
  unfold bind at 1, open_read. cbn [w_dirs set_stdout].
  rewrite Hdir, decide_True by done.
  set (w0 := set_stdout (w_stdout w ++ [PrintWaiting]) w).
  assert (forall w1,
            exists w',
              for_each reads db_fifo_turn MkNotificationRunner w1
              = (Ok MkNotificationRunner, w')
              /\ w_stdout w'
                 = w_stdout w1
                   ++ repeat (PrintReceived (w_time w1))
                        (length (concat reads))
              /\ w_naps w'
                 = (w_naps w1
                    + length (filter (fun data => data = []) reads))%nat
              /\ w_procs w' = w_procs w1
              /\ w_dirs w' = w_dirs w1 /\ w_files w' = w_files w1
              /\ w_stderr w' = w_stderr w1 /\ w_time w' = w_time w1) as Hloop.
  { induction reads as [|data reads IH]; intros w1.
    - exists w1. simpl. unfold ret. by rewrite app_nil_r, Nat.add_0_r.
    - cbn [for_each]. unfold bind. rewrite notification_turn.
      match goal with
      | |- context [for_each reads db_fifo_turn _ ?w2] =>
          destruct (IH w2) as (w' & Hrun & Ho & Hn & Hp & Hd & Hf & He & Ht)
      end.
      exists w'. rewrite Hrun. split; [done|].
      rewrite Ho, Hn, Hp, Hd, Hf, He, Ht. simpl.
      rewrite length_app, repeat_app, <- app_assoc.
      rewrite (filter_cons (fun data => data = [])).
      split; [done|]. split; [|by destruct w1].
      destruct (decide (data = [])); simpl; lia. }
  destruct (Hloop w0) as (w' & Hrun & Ho & Hn & Hp & Hd & Hf & He & Ht).
  exists w'. rewrite Hrun. split; [done|].
  rewrite Ho, Hn, Hp, Hd, Hf, He. unfold w0. simpl.
  rewrite <- app_assoc. by destruct w.
Qed.

Lemma log_mode_listener_witness :
  exists w',
    db_fifo_thread alice_dir 4242 MkNotificationRunner [b "ab"; []; b "c"]
      (alice_world [] {["db"; "fifo.4242"]})
    = (Ok MkNotificationRunner, w')
    /\ w_stdout w'
       = [PrintWaiting; PrintReceived 1700000100; PrintReceived 1700000100;
          PrintReceived 1700000100]
    /\ w_naps w' = 1%nat
    /\ w_procs w' = []
    /\ w_dirs w' = w_dirs (alice_world [] {["db"; "fifo.4242"]})
    /\ w_files w' = w_files (alice_world [] {["db"; "fifo.4242"]})
    /\ w_stderr w' = [].
Proof.
  apply (log_mode_listener alice_dir 4242 [b "ab"; []; b "c"]
           (alice_world [] {["db"; "fifo.4242"]}) {["db"; "fifo.4242"]}).
  - reflexivity.
  - apply elem_of_union_r, elem_of_singleton. reflexivity.
Defined.



(** ** The heartbeat thread *)







(** ** Start of the program, with a usable [LOGNAME] *)






